(** * The package module [lasagne/layers/__init__.py]

    The file consists of a module documentation string followed by ten
    relative wildcard imports.  This development embeds

    - the text of the file, line by line, and a scanner that sorts its
      lines into statements ([Source]);
    - the run-time effect of the module body on the package namespace,
      parametric in the contents of the ten submodules ([Package]);
    - the layer API that the documentation string describes (parameter
      initialisation, network construction, output computation), whose
      implementation lives in the submodules ([Layers]). *)

From Stdlib Require Import Ascii.
From stdpp Require Import gmap strings list fin_maps.

Local Open Scope string_scope.
Local Open Scope list_scope.

(** ** Source text and statements *)

Module Source.

(** The double-quote character, and the delimiter of a Python
    documentation string. *)
Definition dq : string := String "034"%char EmptyString.
Definition triple_quote : string := dq +:+ dq +:+ dq.
Definition blank : string := EmptyString.

(** The 187 lines of [lasagne/layers/__init__.py], in order. *)
Definition source_lines : list string :=
  [ triple_quote;
    "The `layers` module provides various classes representing the layers of a";
    "neural network. All of them are subclasses of the `Layer` base class.";
    blank;
    "Creating a layer";
    "----------------";
    blank;
    "A layer can be created as an instance of a `Layer` subclass. For example, a";
    "dense layer can be created as follows:";
    blank;
    ">>> import lasagne";
    ">>> l = lasagne.layers.DenseLayer(l_in, num_units=100) # doctest: +SKIP";
    blank;
    "This will create a dense layer with 100 units, connected to another layer";
    "`l_in`.";
    blank;
    "Creating a network";
    "------------------";
    blank;
    "Note that for almost all types of layers, you will have to specify one or more";
    "other layers that the layer you are creating gets its input from. The main";
    "exception is :class:`InputLayer`, which can be used to represent the input of";
    "a network.";
    blank;
    "Chaining layer instances together like this will allow you to specify your";
    "desired network structure. Note that the same layer can be used as input to";
    "multiple other layers, allowing for arbitrary tree and directed acyclic graph";
    "(DAG) structures.";
    blank;
    "Here is an example of an MLP with a single hidden layer:";
    blank;
    ">>> import theano.tensor as T";
    ">>> l_in = lasagne.layers.InputLayer((100, 50))";
    ">>> l_hidden = lasagne.layers.DenseLayer(l_in, num_units=200)";
    ">>> l_out = lasagne.layers.DenseLayer(l_hidden, num_units=10,";
    "...                                   nonlinearity=T.nnet.softmax)";
    blank;
    "The first layer of the network is an `InputLayer`, which represents the input.";
    "When creating an input layer, you should specify the shape of the input data.";
    "In this example, the input is a matrix with shape (100, 50), representing a";
    "batch of 100 data points, where each data point is a vector of length 50.";
    "the first dimension of a tensor is usually the batch dimension, following the";
    "established Theano and scikit-learn conventions.";
    blank;
    "The hidden layer of the network is a dense layer with 200 units, taking its";
    "input from the input layer. Note that we did not specify the nonlinearity of";
    "the hidden layer. A layer with rectified linear units will be created by";
    "default.";
    blank;
    "The output layer of the network is a dense layer with 10 units and a softmax";
    "nonlinearity, allowing for 10-way classification of the input vectors.";
    blank;
    "Note also that we did not create any object representing the entire network.";
    "Instead, the output layer instance `l_out` is also used to refer to the entire";
    "network in Lasagne.";
    blank;
    "Naming layers";
    "-------------";
    blank;
    "For convenience, you can name a layer by specifying the `name` keyword";
    "argument:";
    blank;
    ">>> l_hidden = lasagne.layers.DenseLayer(l_in, num_units=200,";
    ("...                                      name=" +:+ dq +:+ "hidden_layer" +:+ dq +:+ ")");
    blank;
    "Initializing parameters";
    "-----------------------";
    blank;
    "Many types of layers, such as :class:`DenseLayer`, have trainable parameters.";
    "These are referred to by short names that match the conventions used in modern";
    "deep learning literature. For example, a weight matrix will usually be called";
    "`W`, and a bias vector will usually be `b`.";
    blank;
    "When creating a layer with trainable parameters, Theano shared variables will";
    "be created for them and initialized automatically. You can optionally specify";
    "your own initialization strategy by using keyword arguments that match the";
    "parameter variable names. For example:";
    blank;
    ">>> l = lasagne.layers.DenseLayer(l_in, num_units=100,";
    "...                               W=lasagne.init.Normal(0.01))";
    blank;
    "The weight matrix `W` of this dense layer will be initialized using samples";
    "from a normal distribution with standard deviation 0.01 (see `lasagne.init`";
    "for more information).";
    blank;
    "There are several ways to manually initialize parameters:";
    blank;
    "- Theano shared variable";
    "    If a shared variable instance is provided, this is used unchanged as the";
    "    parameter variable. For example:";
    blank;
    "    >>> import theano";
    "    >>> import numpy as np";
    "    >>> W = theano.shared(np.random.normal(0, 0.01, (50, 100)))";
    "    >>> l = lasagne.layers.DenseLayer(l_in, num_units=100, W=W)";
    blank;
    "- numpy array";
    "    If a numpy array is provided, a shared variable is created and initialized";
    "    using the array. For example:";
    blank;
    "    >>> W_init = np.random.normal(0, 0.01, (50, 100))";
    "    >>> l = lasagne.layers.DenseLayer(l_in, num_units=100, W=W_init)";
    blank;
    "- callable";
    "    If a callable is provided (e.g. a function or a";
    "    :class:`lasagne.init.Initializer` instance), a shared variable is created";
    "    and the callable is called with the desired shape to generate suitable";
    "    initial parameter values. The variable is then initialized with those";
    "    values. For example:";
    blank;
    "    >>> l = lasagne.layers.DenseLayer(l_in, num_units=100,";
    "    ...                               W=lasagne.init.Normal(0.01))";
    blank;
    "    Or, using a custom initialization function:";
    blank;
    "    >>> def init_W(shape):";
    "    ...     return np.random.normal(0, 0.01, shape)";
    "    >>> l = lasagne.layers.DenseLayer(l_in, num_units=100, W=init_W)";
    blank;
    "Some types of parameter variables can also be set to ``None`` at initialization";
    "(e.g. biases). In that case, the parameter variable will be omitted.";
    "For example, creating a dense layer without biases is done as follows:";
    blank;
    ">>> l = lasagne.layers.DenseLayer(l_in, num_units=100, b=None)";
    blank;
    "Parameter sharing";
    "-----------------";
    blank;
    "Parameter sharing between multiple layers can be achieved by using the";
    "same Theano shared variable instance for their parameters. For example:";
    blank;
    ">>> l1 = lasagne.layers.DenseLayer(l_in, num_units=100)";
    ">>> l2 = lasagne.layers.DenseLayer(l_in, num_units=100, W=l1.W)";
    blank;
    "These two layers will now share weights (but have separate biases).";
    blank;
    "Propagating data through layers";
    "-------------------------------";
    blank;
    "To compute the output of a single layer given its input, the `get_output_for()`";
    "method can be used. To compute the output of a network, you should instead call";
    "`get_output()`. This will traverse the network graph.";
    blank;
    "Any keyword arguments passed to `get_output()` are propagated to all layers.";
    "This makes it possible to control the behaviour of the entire network. The";
    "main use case for this is the `deterministic` keyword argument, which disables";
    "stochastic behaviour such as dropout when set to ``True``. This is useful";
    "because a deterministic output is desirable at evaluation time.";
    blank;
    "Creating a custom layer class";
    "-----------------------------";
    blank;
    "To implement a custom layer class, you should subclass :class:`Layer` and";
    "implement at least one method: `get_output_for()`. This method computes the";
    "output of the layer given its input. Note that both the output and the input";
    "are Theano expressions, so they are symbolic.";
    blank;
    "If the layer does not change the shape of the data (for example because it";
    "applies an elementwise operation), then implementing this one method is";
    "sufficient. Otherwise, you should also implement `get_output_shape_for()`,";
    "which computes the shape of the layer output given the shape of its input.";
    "Note that this shape computation should result in a tuple of integers, so it";
    "is *not* symbolic.";
    blank;
    "If the layer has trainable parameters, these should be initialized in the";
    "constructor using the `create_param()` method. When overriding the constructor,";
    "it is also important to call the base class constructor as the first statement,";
    "passing ``kwargs`` as well.";
    blank;
    "A layer should declare its trainable parameters by implementing a";
    "`get_params()` method, which returns a list of Theano shared variables";
    "representing the trainable parameters.";
    blank;
    "TODO: flesh out this section, update it once the API is frozen.";
    triple_quote;
    blank;
    blank;
    "from .base import *";
    "from .helper import *";
    "from .input import *";
    "from .dense import *";
    "from .noise import *";
    "from .conv import *";
    "from .pool import *";
    "from .shape import *";
    "from .merge import *";
    "from .normalization import *" ].

(** Statements of a module body, one per logical line.  The kinds are
    those of Python's grammar that import, define, raise, handle or run
    asynchronously; a line of any other shape is kept as [Other]. *)
Inductive stmt : Type :=
  | Docstring (text : list string)
  | ImportFrom (level : nat) (module : string) (names : list string)
  | Import (names : list string)
  | FunctionDef (header : list string)
  | AsyncStmt (rest : list string)
  | ClassDef (header : list string)
  | Assign (target : string) (value : list string)
  | Raise (exc : list string)
  | Try
  | ExceptHandler (exc : list string)
  | Finally
  | Assert (test : list string)
  | With (items : list string)
  | Other (tokens : list string).

(** Number of leading dots of a relative module path, and the path
    without them. *)
Fixpoint strip_dots (s : string) : nat * string :=
  match s with
  | String "."%char s' => let '(n, m) := strip_dots s' in (S n, m)
  | _ => (0, s)
  end.

(** The text before the first opening parenthesis or colon: the keyword
    of a compound statement written without a space (such as the
    handler-less forms of try, except and finally). *)
Fixpoint keyword_of (s : string) : string :=
  match s with
  | EmptyString => EmptyString
  | String c s' =>
      if (Ascii.eqb c ":" || Ascii.eqb c "(")%bool then EmptyString
      else String c (keyword_of s')
  end.

(** One logical line of code, given as its blank-separated tokens. *)
Definition classify (tokens : list string) : stmt :=
  match tokens with
  | [] => Other []
  | kw :: rest =>
      if String.eqb kw "from" then
        match rest with
        | [m; imp; n] =>
            if String.eqb imp "import"
            then let '(lvl, name) := strip_dots m in ImportFrom lvl name [n]
            else Other tokens
        | _ => Other tokens
        end
      else if String.eqb kw "import" then Import rest
      else if String.eqb kw "def" then FunctionDef rest
      else if String.eqb kw "async" then AsyncStmt rest
      else if String.eqb kw "class" then ClassDef rest
      else if String.eqb (keyword_of kw) "raise" then Raise rest
      else if String.eqb (keyword_of kw) "try" then Try
      else if String.eqb (keyword_of kw) "except" then ExceptHandler rest
      else if String.eqb (keyword_of kw) "finally" then Finally
      else if String.eqb (keyword_of kw) "assert" then Assert rest
      else if String.eqb (keyword_of kw) "with" then With rest
      else match rest with
           | eq :: value =>
               if String.eqb eq "=" then Assign kw value else Other tokens
           | [] => Other tokens
           end
  end.

(** The lines up to the closing delimiter of a documentation string,
    and the lines after it; [None] when the string is not closed. *)
Fixpoint split_docstring (lines : list string)
  : option (list string * list string) :=
  match lines with
  | [] => None
  | l :: rest =>
      if String.eqb l triple_quote then Some ([], rest)
      else match split_docstring rest with
           | Some (doc, code) => Some (l :: doc, code)
           | None => None
           end
  end.

(** Code lines to statements; blank lines carry no statement. *)
Definition parse_code (lines : list string) : list stmt :=
  classify <$> filter (λ ts, ts ≠ []) (String.words <$> lines).

(** A module body: an optional leading documentation string that opens
    and closes on lines of their own, then code. *)
Definition parse_module (lines : list string) : option (list stmt) :=
  match lines with
  | l :: rest =>
      if String.eqb l triple_quote then
        match split_docstring rest with
        | Some (doc, code) => Some (Docstring doc :: parse_code code)
        | None => None
        end
      else Some (parse_code lines)
  | [] => Some []
  end.

(** The ten submodules of the package, in the order of the file. *)
Definition submodules : list string :=
  [ "base"; "helper"; "input"; "dense"; "noise";
    "conv"; "pool"; "shape"; "merge"; "normalization" ].

(** The documentation string: lines 2 to 174 of the file. *)
Definition docstring : list string := take 173 (drop 1 source_lines).

(** The module body as an abstract syntax tree. *)
Definition module_body : list stmt :=
  Docstring docstring :: ((λ m, ImportFrom 1 m ["*"]) <$> submodules).

(** *** Predicates on statements *)

Definition is_import (s : stmt) : bool :=
  match s with ImportFrom _ _ _ | Import _ => true | _ => false end.

Definition is_star_import (s : stmt) : bool :=
  match s with
  | ImportFrom 1 _ [n] => String.eqb n "*"
  | _ => false
  end.

Definition is_docstring (s : stmt) : bool :=
  match s with Docstring _ => true | _ => false end.

(** Statements that introduce a name of the module's own. *)
Definition is_definition (s : stmt) : bool :=
  match s with
  | FunctionDef _ | ClassDef _ | Assign _ _ => true
  | AsyncStmt ("def" :: _) => true
  | _ => false
  end.

(** Statements that raise or handle an exception, or declare a class
    (the only way to define an exception type). *)
Definition is_error_handling (s : stmt) : bool :=
  match s with
  | Raise _ | Try | ExceptHandler _ | Finally | Assert _ | ClassDef _ => true
  | _ => false
  end.

(** Names of the standard modules that provide threads, locks,
    processes and asynchronous execution. *)
Definition concurrency_modules : list string :=
  [ "threading"; "thread"; "_thread"; "multiprocessing"; "asyncio";
    "concurrent"; "concurrent.futures"; "queue"; "Queue"; "subprocess";
    "signal"; "select"; "sched" ].

(** Identifiers whose presence in a line betrays a thread, a lock or an
    asynchronous construct. *)
Definition concurrency_words : list string :=
  [ "thread"; "Thread"; "lock"; "Lock"; "async"; "await"; "Semaphore";
    "multiprocessing"; "concurrent"; "Process"; "Pool(" ].

Definition is_concurrency (s : stmt) : bool :=
  match s with
  | AsyncStmt _ => true
  | ImportFrom _ m _ => bool_decide (m ∈ concurrency_modules)
  | Import ns => existsb (λ n, bool_decide (n ∈ concurrency_modules)) ns
  | _ => false
  end.

(** Modules named by the import statements, in order. *)
Definition imported_modules (body : list stmt) : list string :=
  omap (λ s, match s with ImportFrom _ m _ => Some m | _ => None end) body.

(** Whether [needle] occurs in [s]. *)
Fixpoint contains (needle s : string) : bool :=
  (String.prefix needle s ||
   match s with
   | EmptyString => false
   | String _ s' => contains needle s'
   end)%bool.

Definition mentions (ws : list string) (line : string) : bool :=
  existsb (λ w, contains w line) ws.

(** Lines [from] to [to] of the file, numbered from 1. *)
Definition lines (from to : nat) : list string :=
  take (S to - from) (drop (from - 1) source_lines).




(** The headings of the bullet items of a passage. *)
Definition bullets (passage : list string) : list string :=
  omap (λ l, match l with
             | String "-" (String " " t) => Some t
             | _ => None
             end) passage.

End Source.

(** ** Executing the module body *)

Module Package.
Import Source.

Section Semantics.
(** The objects that the submodules define and the exceptions that
    importing one of them may raise belong to code outside this file. *)
Context {Obj Exn : Type}.

(** What a name of the package namespace can be bound to. *)
Inductive value : Type :=
  | VDoc (text : list string)
  | VModule (name : string)
  | VObj (o : Obj).

(** The two instructions that the statements of this file compile to:
    a leading string literal is stored as [__doc__]; a relative
    wildcard import loads the submodule and copies its public names. *)
Inductive instr : Type :=
  | StoreDoc (text : list string)
  | ImportStar (module : string).

Definition compile_stmt (s : stmt) : option instr :=
  match s with
  | Docstring text => Some (StoreDoc text)
  | ImportFrom 1 m [n] =>
      if String.eqb n "*" then Some (ImportStar m) else None
  | _ => None
  end.

Definition compile (body : list stmt) : option (list instr) :=
  mapM compile_stmt body.

(** The code object of the module. *)
Definition code : list instr :=
  StoreDoc docstring :: (ImportStar <$> submodules).

(** Importing a submodule either raises, or yields the bindings that a
    wildcard import copies from it (the names listed in its [__all__],
    or else its names without a leading underscore). *)
Variable load : string → Exn + gmap string Obj.

(** The submodules of the package that get loaded while the body of a
    submodule runs, because it imports them, directly or through one
    another; in the order in which their loading completes. *)
Variable requires : string → list string.

(** The package's global namespace, and the submodules loaded so far
    (the package's entries of [sys.modules]), in order of completion. *)
Record state : Type := State {
  globals : gmap string value;
  loaded : list string
}.

(** Star-exports of the submodules that load. *)
Definition exports_of (m : string) : gmap string Obj :=
  match load m with
  | inr exports => exports
  | inl _ => ∅
  end.

(** When the loading of submodule [s] completes, the import machinery
    enters it among the loaded modules and binds it under its own name
    in the package.  A submodule that is loaded already is neither
    loaded nor bound again. *)
Definition first_load (s : string) (st : state) : state :=
  if decide (s ∈ loaded st) then st
  else State (<[s := VModule s]> (globals st)) (loaded st ++ [s]).

(** Importing submodule [m]: unless it is loaded already, its body
    runs, which loads the submodules it requires, and then [m] itself
    completes. *)
Definition import_submodule (m : string) (st : state) : state :=
  if decide (m ∈ loaded st) then st
  else foldl (λ st s, first_load s st) st (requires m ++ [m]).

(** [from .m import *] when [m] loads: the submodule is imported, then
    every exported name is copied into the package, overwriting a
    binding of the same name. *)
Definition import_star (m : string) (st : state) : state :=
  let st' := import_submodule m st in
  State ((VObj <$> exports_of m) ∪ globals st') (loaded st').

Definition exec_instr (i : instr) (st : state) : Exn + state :=
  match i with
  | StoreDoc text =>
      inr (State (<["__doc__" := VDoc text]> (globals st)) (loaded st))
  | ImportStar m =>
      match load m with
      | inl e => inl e
      | inr _ => inr (import_star m st)
      end
  end.

(** Instructions run in order; an exception stops the run, and the
    module under construction is abandoned. *)
Fixpoint exec_code (c : list instr) (st : state) : Exn + state :=
  match c with
  | [] => inr st
  | i :: rest =>
      match exec_instr i st with
      | inl e => inl e
      | inr st' => exec_code rest st'
      end
  end.

(** Importing the package runs its code on the module's initial
    attributes [g0], with no submodule loaded.  When the body raises,
    the exception propagates to the importer and there is no package
    namespace. *)
Definition import_package (g0 : gmap string value)
  : Exn + gmap string value :=
  match exec_code code (State g0 []) with
  | inr st => inr (globals st)
  | inl e => inl e
  end.

(** The state after the wildcard imports of the submodules [ms], when
    each of them loads. *)
Definition run_imports (ms : list string) (st : state) : state :=
  foldl (λ st m, import_star m st) st ms.

(** The namespace after the wildcard imports of the submodules [ms]
    into [g], starting with no submodule loaded. *)
Definition after_imports (g : gmap string value) (ms : list string)
  : gmap string value :=
  globals (run_imports ms (State g [])).

(** *** The namespace in the words of the specification *)

(** Last import wins: the binding of [n] is the one of the last
    submodule, in import order, that exports [n]. *)
Definition last_export (ms : list string) (n : string) : option Obj :=
  head (omap (λ m, exports_of m !! n) (reverse ms)).


End Semantics.

Arguments value : clear implicits.
Arguments state : clear implicits.

End Package.

(** ** The layer API described by the documentation string *)

Module Layers.

(** *** Parameter initialisation *)

Section Parameters.
(** Numeric arrays are values of the tensor engine. *)
Context {Array : Type}.

(** Modelled from the spec: the shared variables of the external
    tensor engine (its implementation is not part of the file).  A
    shared variable is a cell of the engine's store, named by its
    index; creating one appends a cell holding the initial value. *)
Definition shared (a : Array) (σ : list Array) : nat * list Array :=
  (length σ, σ ++ [a]).

(** Modelled from the spec: the ways a parameter can be passed to a
    layer constructor, after the section on initialising parameters of
    the documentation string (the constructors are in the submodules). *)
Inductive param_spec : Type :=
  | SharedVariable (v : nat)
  | NumpyArray (a : Array)
  | Callable (init : list nat → Array)
  | NoParam.

(** Modelled from the spec: [create_param], which the documentation
    string names as the method a constructor initialises its
    parameters with (defined in the submodule [base]).  It returns the
    parameter variable, or nothing when the parameter is omitted. *)
Definition create_param (spec : param_spec) (shape : list nat)
    (σ : list Array) : option nat * list Array :=
  match spec with
  | SharedVariable v => (Some v, σ)
  | NumpyArray a => let '(v, σ') := shared a σ in (Some v, σ')
  | Callable init => let '(v, σ') := shared (init shape) σ in (Some v, σ')
  | NoParam => (None, σ)
  end.
End Parameters.

Arguments param_spec : clear implicits.

(** *** Networks *)

(** Values that can be passed as keyword arguments. *)
Inductive kwvalue : Type :=
  | KBool (b : bool)
  | KInt (z : Z)
  | KStr (s : string)
  | KNone.

Abbreviation kwargs := (gmap string kwvalue).

(** The [deterministic] keyword argument; absent means not set. *)
Definition deterministic (kw : kwargs) : bool :=
  match kw !! "deterministic" with
  | Some (KBool b) => b
  | _ => false
  end.

Section Network.
(** Symbolic tensor expressions and random draws belong to the
    external engine. *)
Context {V R : Type}.

(** Modelled from the spec: what a layer computes from the outputs of
    its input layers (the layer classes are in the submodules).  The
    layers of the noise family have a stochastic behaviour that the
    [deterministic] keyword argument disables. *)
Inductive behaviour : Type :=
  | Deterministic (f : list V → kwargs → V)
  | Stochastic (clean : list V → kwargs → V)
               (noisy : R → list V → kwargs → V).

(** Modelled from the spec: a layer object.  An input layer has a
    shape and no input layer; every other layer holds references to
    the layers it gets its input from. *)
Inductive layer : Type :=
  | InputLayer (shape : list nat)
  | Layer (input_layers : list nat) (b : behaviour).

Definition inputs_of (l : layer) : list nat :=
  match l with
  | InputLayer _ => []
  | Layer ins _ => ins
  end.

(** The layer objects created so far, in order of creation; a
    reference to a layer is its position. *)
Local Abbreviation network := (list layer).

(** Modelled from the spec: the constructor of [InputLayer]. *)
Definition new_input (shape : list nat) (net : network) : nat * network :=
  (length net, net ++ [InputLayer shape]).

(** Modelled from the spec: the constructor of every other layer
    class.  Its arguments are layer objects, so each must exist
    already. *)
Definition new_layer (ins : list nat) (b : behaviour) (net : network)
  : option (nat * network) :=
  if forallb (λ i, bool_decide (i < length net)) ins
  then Some (length net, net ++ [Layer ins b])
  else None.

(** Networks that the constructors can produce. *)
Inductive built : network → Prop :=
  | built_empty : built []
  | built_input shape net :
      built net → built (new_input shape net).2
  | built_layer ins b net id net' :
      built net → new_layer ins b net = Some (id, net') → built net'.

(** Every reference of a layer points to a layer created before it. *)
Definition ordered (net : network) : Prop :=
  ∀ i l j, net !! i = Some l → j ∈ inputs_of l → j < i.

(** [edge net i j]: layer [i] gets input from layer [j]. *)
Definition edge (net : network) (i j : nat) : Prop :=
  ∃ l, net !! i = Some l ∧ j ∈ inputs_of l.

(** What an output computation leaves behind: the number of random
    draws consumed, and the layers called with the keyword arguments
    each received. *)
Record trace : Type := Trace {
  draws : nat;
  visits : list (nat * kwargs)
}.

Definition visit (l : nat) (kw : kwargs) (t : trace) : trace :=
  Trace (draws t) (visits t ++ [(l, kw)]).

(** The visits [new] are those of a walk from [roots] that hands on
    [kw]: each is a layer that some root reaches and carries [kw], and
    every layer that a root reaches is among them. *)
Definition visited_by (net : network) (kw : kwargs) (roots : list nat)
    (new : list (nat * kwargs)) : Prop :=
  Forall (λ p, p.2 = kw ∧ ∃ r, r ∈ roots ∧ rtc (edge net) r p.1) new ∧
  ∀ r i, r ∈ roots → rtc (edge net) r i → (i, kw) ∈ new.

(** Modelled from the spec: [get_output_for] of layer [l], the output
    of a single layer given its input.  The layer notes the keyword
    arguments it is called with.  A stochastic layer takes the next draw
    of the random stream unless [deterministic] is set. *)
Definition get_output_for (l : nat) (b : behaviour) (ins : list V)
    (kw : kwargs) (rng : nat → R) (t : trace) : V * trace :=
  let t' := visit l kw t in
  match b with
  | Deterministic f => (f ins kw, t')
  | Stochastic clean noisy =>
      if deterministic kw then (clean ins kw, t')
      else (noisy (rng (draws t')) ins kw, Trace (S (draws t')) (visits t'))
  end.

(** A fallible, state-passing map over a list. *)
Fixpoint mapM_st {A B S : Type} (f : A → S → option (B * S))
    (l : list A) (s : S) : option (list B * S) :=
  match l with
  | [] => Some ([], s)
  | a :: l' =>
      match f a s with
      | Some (b, s1) =>
          match mapM_st f l' s1 with
          | Some (bs, s2) => Some (b :: bs, s2)
          | None => None
          end
      | None => None
      end
  end.

(** Modelled from the spec: [get_output], the output of the network
    that ends in layer [l].  It walks the graph from [l] towards the
    input layers, handing its keyword arguments on, and calls
    [get_output_for] of each layer on the outputs of its input layers.
    [x] is the data fed to each input layer; [fuel] bounds the depth of
    the walk. *)
Fixpoint get_output (fuel : nat) (net : network) (x : nat → V)
    (kw : kwargs) (rng : nat → R) (l : nat) (t : trace)
  : option (V * trace) :=
  match fuel with
  | 0 => None
  | S fuel' =>
      match net !! l with
      | None => None
      | Some (InputLayer _) => Some (x l, visit l kw t)
      | Some (Layer ins b) =>
          match mapM_st (get_output fuel' net x kw rng) ins t with
          | Some (vs, t1) => Some (get_output_for l b vs kw rng t1)
          | None => None
          end
      end
  end.
End Network.

Arguments behaviour : clear implicits.
Arguments layer : clear implicits.

(** A network over tensor expressions [V] and random draws [R]. *)
Abbreviation network V R := (list (layer V R)).

End Layers.


(** ** Sample inputs *)

Module Examples.
Import Package Layers.

(** Submodules with a few exports: [base] and [normalization] both
    export [Layer], [helper] exports [get_output]. *)
Definition sample_load (m : string) : string + gmap string nat :=
  if String.eqb m "base" then inr {[ "Layer" := 1 ]}
  else if String.eqb m "helper" then inr {[ "get_output" := 2 ]}
  else if String.eqb m "normalization" then inr {[ "Layer" := 3 ]}
  else inr ∅.

(** Imports among the submodules: [base] imports [conv]; [helper]
    imports [base], which brings [conv], and [input]. *)
Definition sample_requires (m : string) : list string :=
  if decide (m = "base") then ["conv"]
  else if decide (m = "helper") then ["conv"; "base"; "input"]
  else [].

(** Submodules that export the name of a submodule: [base] exports
    [conv], [pool] exports [noise]. *)
Definition shadowing_load (m : string) : string + gmap string nat :=
  if String.eqb m "base" then inr {[ "conv" := 7 ]}
  else if String.eqb m "pool" then inr {[ "noise" := 8 ]}
  else inr ∅.

(** Submodules that export one object under one name: [Layer] is
    defined in [base] and exported again by [dense]. *)
Definition reexport_load (m : string) : string + gmap string nat :=
  if String.eqb m "base" then inr {[ "Layer" := 1 ]}
  else if String.eqb m "dense" then
    inr {[ "Layer" := 1; "DenseLayer" := 3 ]}
  else inr ∅.

(** Submodules whose exports do not clash: [base] exports [Layer],
    [helper] exports [get_output], [dense] exports [DenseLayer]. *)
Definition distinct_load (m : string) : string + gmap string nat :=
  if String.eqb m "base" then inr {[ "Layer" := 1 ]}
  else if String.eqb m "helper" then inr {[ "get_output" := 2 ]}
  else if String.eqb m "dense" then inr {[ "DenseLayer" := 3 ]}
  else inr ∅.

(** The same submodules when importing [conv] raises. *)
Definition conv_fails (m : string) : string + gmap string nat :=
  if String.eqb m "conv" then inl "ImportError: conv" else sample_load m.

(** Layers over numbers: a dense layer adds its number of units to the
    sum of its inputs; a dropout layer multiplies the sum of its inputs
    by a random draw, and passes it on unchanged when disabled. *)
Definition dense (num_units : nat) : behaviour nat nat :=
  Deterministic (λ vs _, num_units + foldr Nat.add 0 vs).

Definition dropout : behaviour nat nat :=
  Stochastic (λ vs _, foldr Nat.add 0 vs) (λ r vs _, r * foldr Nat.add 0 vs).

(** The network with one hidden layer of the documentation string. *)
Definition mlp : network nat nat :=
  [ InputLayer [100; 50]; Layer [0] (dense 200); Layer [1] (dense 10) ].

(** The same network with dropout on the hidden layer. *)
Definition mlp_dropout : network nat nat :=
  [ InputLayer [100; 50]; Layer [0] (dense 200); Layer [1] dropout;
    Layer [2] (dense 10) ].

End Examples.
(** * Properties *)

(** ** The text of the file *)

Module SourceProps.
Import Source.

(** The scanner reads the file as the abstract syntax tree
    [module_body]. *)
Lemma parse_source : parse_module source_lines = Some module_body.
Proof. vm_compute. reflexivity. Qed.

(** C1: the import statements of the module are exactly the ten
    relative wildcard imports of base, helper, input, dense, noise,
    conv, pool, shape, merge and normalization, in this order; the
    module has no other import statement. *)
Theorem imports_are_ten_star_imports :
  ∃ body,
    parse_module source_lines = Some body ∧
    filter (λ s, is_import s = true) body =
      [ ImportFrom 1 "base" ["*"]; ImportFrom 1 "helper" ["*"];
        ImportFrom 1 "input" ["*"]; ImportFrom 1 "dense" ["*"];
        ImportFrom 1 "noise" ["*"]; ImportFrom 1 "conv" ["*"];
        ImportFrom 1 "pool" ["*"]; ImportFrom 1 "shape" ["*"];
        ImportFrom 1 "merge" ["*"]; ImportFrom 1 "normalization" ["*"] ] ∧
    imported_modules body = submodules ∧
    length (filter (λ s, is_import s = true) body) = 10.
Proof.
  exists module_body. split; [apply parse_source|].
  repeat split; vm_compute; reflexivity.
Qed.

(** C2: the module body is a documentation string followed by wildcard
    imports only; no statement defines a function, a class or a
    variable, and no line is left unclassified. *)
Theorem body_is_docstring_then_imports :
  ∃ doc rest,
    parse_module source_lines = Some (Docstring doc :: rest) ∧
    doc = lines 2 174 ∧
    forallb is_star_import rest = true ∧
    forallb (λ s, negb (is_definition s)) (Docstring doc :: rest) = true ∧
    forallb (λ s, is_docstring s || is_star_import s)
            (Docstring doc :: rest) = true.
Proof.
  exists docstring, ((λ m, ImportFrom 1 m ["*"]) <$> submodules).
  split; [apply parse_source|].
  repeat split; vm_compute; reflexivity.
Qed.

(** C7: no statement of the module raises or handles an exception or
    declares a class, so the module defines no exception type; the
    conventions on shapes and on calling the base class constructor are
    text of the documentation string. *)
Theorem no_error_handling :
  ∃ body,
    parse_module source_lines = Some body ∧
    forallb (λ s, negb (is_error_handling s)) body = true ∧
    filter (λ s, negb (is_docstring s || is_import s) = true) body = [] ∧
    existsb (contains "call the base class constructor") docstring = true ∧
    existsb (contains "computes the shape of the layer output") docstring
      = true.
Proof.
  exists module_body. split; [apply parse_source|].
  repeat split; vm_compute; reflexivity.
Qed.

(** C10: no statement of the module is asynchronous or imports a module
    that provides threads, locks or processes, and no line of the file,
    the documentation string included, mentions such a construct. *)
Theorem no_concurrency_primitive :
  ∃ body,
    parse_module source_lines = Some body ∧
    forallb (λ s, negb (is_concurrency s)) body = true ∧
    forallb (λ l, negb (mentions concurrency_words l)) source_lines = true ∧
    forallb (λ m, negb (bool_decide (m ∈ concurrency_modules)))
            (imported_modules body) = true.
Proof.
  exists module_body. split; [apply parse_source|].
  repeat split; vm_compute; reflexivity.
Qed.

End SourceProps.

(** ** The package namespace *)

Module PackageProps.
Import Source Package.

(** The instructions modelled are the ones the file compiles to. *)
Lemma compile_module_body : compile module_body = Some code.
Proof. reflexivity. Qed.

Lemma doc_not_submodule : "__doc__" ∉ submodules.
Proof. apply (bool_decide_unpack ("__doc__" ∉ submodules)). vm_compute. exact I. Qed.

Section Run.
Context {Obj Exn : Type}.
Variable load : string → Exn + gmap string Obj.
Variable requires : string → list string.

Implicit Types (g : gmap string (value Obj)) (ms : list string)
               (st : state Obj) (m n s x : string).

Local Abbreviation first_load := (@first_load Obj).
Local Abbreviation import_submodule := (import_submodule requires).
Local Abbreviation import_star := (import_star load requires).
Local Abbreviation run_imports := (run_imports load requires).
Local Abbreviation exports_of := (exports_of load).

(** *** Loading a submodule *)

Lemma first_load_loaded s st x :
  x ∈ loaded (first_load s st) ↔ x ∈ loaded st ∨ x = s.
Proof.
  unfold Package.first_load. case_decide as Hs; simpl.
  - split; [by left|]. by intros [?| ->].
  - rewrite elem_of_app, list_elem_of_singleton. done.
Qed.

Lemma first_load_lookup s st n :
  globals (first_load s st) !! n =
    if decide (n = s ∧ s ∉ loaded st) then Some (VModule n)
    else globals st !! n.
Proof.
  unfold Package.first_load. case_decide as Hs; simpl.
  - case_decide as Hn; [|done]. by destruct Hn as [_ Hn].
  - rewrite lookup_insert.
    case_decide as Hn; case_decide as Hn'; subst; try done.
    + exfalso. by apply Hn'.
    + by destruct Hn' as [-> _].
Qed.

Lemma first_loads_loaded names st x :
  x ∈ loaded (foldl (λ st s, first_load s st) st names) ↔
    x ∈ loaded st ∨ x ∈ names.
Proof.
  revert st. induction names as [|s names IH]; intros st; cbn [foldl].
  - split; [by left|]. intros [?|H]; [done|]. by apply elem_of_nil in H.
  - rewrite IH, first_load_loaded, elem_of_cons. tauto.
Qed.

Lemma first_loads_lookup names st n :
  globals (foldl (λ st s, first_load s st) st names) !! n =
    if decide (n ∈ names ∧ n ∉ loaded st) then Some (VModule n)
    else globals st !! n.
Proof.
  revert st. induction names as [|s names IH]; intros st; cbn [foldl].
  - case_decide as H; [|done]. destruct H as [H _].
    by apply elem_of_nil in H.
  - rewrite IH, first_load_lookup.
    pose proof (first_load_loaded s st n) as Hl.
    destruct (decide (n = s)) as [->|Hne].
    + repeat case_decide; try done; exfalso;
        rewrite ?elem_of_cons in *; tauto.
    + repeat case_decide; try done; exfalso;
        rewrite ?elem_of_cons in *; tauto.
Qed.

Lemma import_submodule_loaded m st x :
  x ∈ loaded (import_submodule m st) ↔
    x ∈ loaded st ∨ ((m ∉ loaded st) ∧ x ∈ (requires m ++ [m])).
Proof.
  unfold Package.import_submodule. case_decide as Hm.
  - tauto.
  - rewrite first_loads_loaded. tauto.
Qed.

Lemma import_submodule_lookup m st n :
  globals (import_submodule m st) !! n =
    if decide ((m ∉ loaded st) ∧ n ∈ (requires m ++ [m]) ∧ n ∉ loaded st)
    then Some (VModule n) else globals st !! n.
Proof.
  unfold Package.import_submodule. case_decide as Hm.
  - case_decide as H; [|done]. by destruct H as [H _].
  - rewrite first_loads_lookup.
    case_decide as H1; case_decide as H2; try done; exfalso; tauto.
Qed.

(** *** One wildcard import *)

Lemma import_star_loaded m st x :
  x ∈ loaded (import_star m st) ↔
    x ∈ loaded st ∨ ((m ∉ loaded st) ∧ x ∈ (requires m ++ [m])).
Proof. apply import_submodule_loaded. Qed.

Lemma import_star_loaded_self m st : m ∈ loaded (import_star m st).
Proof.
  apply import_star_loaded.
  destruct (decide (m ∈ loaded st)); [by left|right].
  split; [done|]. apply elem_of_app. right. by left.
Qed.

Lemma import_star_lookup m st n :
  globals (import_star m st) !! n =
    match exports_of m !! n with
    | Some o => Some (VObj o)
    | None =>
        if decide ((m ∉ loaded st) ∧ n ∈ (requires m ++ [m]) ∧ n ∉ loaded st)
        then Some (VModule n) else globals st !! n
    end.
Proof.
  unfold Package.import_star. simpl.
  rewrite lookup_union, lookup_fmap, import_submodule_lookup.
  destruct (exports_of m !! n) as [o|]; simpl.
  - by destruct (if decide _ then _ else _).
  - by destruct (if decide _ then _ else _).
Qed.

(** *** A sequence of wildcard imports *)

Lemma run_imports_snoc ms m st :
  run_imports (ms ++ [m]) st = import_star m (run_imports ms st).
Proof. unfold Package.run_imports. by rewrite foldl_snoc. Qed.

Lemma run_imports_app ms1 ms2 st :
  run_imports (ms1 ++ ms2) st = run_imports ms2 (run_imports ms1 st).
Proof. unfold Package.run_imports. by rewrite foldl_app. Qed.

Lemma run_imports_loaded_mono ms st x :
  x ∈ loaded st → x ∈ loaded (run_imports ms st).
Proof.
  revert st. induction ms as [|m ms IH]; intros st Hx; [done|].
  apply IH, import_star_loaded. by left.
Qed.

(** Every submodule imported is loaded afterwards. *)
Lemma run_imports_loaded ms st m :
  m ∈ ms → m ∈ loaded (run_imports ms st).
Proof.
  revert st. induction ms as [|m' ms IH]; intros st Hm;
    [by apply elem_of_nil in Hm|].
  apply elem_of_cons in Hm as [->|Hm]; simpl.
  - apply run_imports_loaded_mono, import_star_loaded_self.
  - by apply IH.
Qed.


(** A name that the imports neither export nor load anew keeps its
    binding. *)
Lemma run_imports_preserve ms st n :
  (∀ m, m ∈ ms → exports_of m !! n = None) →
  (∀ m, m ∈ ms → n ∈ (requires m ++ [m]) → n ∈ loaded st) →
  globals (run_imports ms st) !! n = globals st !! n.
Proof.
  revert st. induction ms as [|m ms IH]; intros st Hex Hreq; [done|].
  simpl. rewrite IH.
  - rewrite import_star_lookup, (Hex m) by (by left).
    rewrite decide_False; [done|].
    intros (_ & Hn & Hnl). apply Hnl, (Hreq m); [by left|done].
  - intros m' Hm'. apply Hex. by right.
  - intros m' Hm' Hn. apply import_star_loaded. left.
    apply (Hreq m'); [by right|done].
Qed.

(** A line that exports a name decides its binding when no later line
    exports it or loads a submodule of that name. *)
Lemma run_imports_export_wins ms1 m ms2 st n o :
  exports_of m !! n = Some o →
  (∀ m', m' ∈ ms2 → exports_of m' !! n = None) →
  (∀ m', m' ∈ ms2 → n ∈ (requires m' ++ [m']) →
         n ∈ loaded (run_imports (ms1 ++ [m]) st)) →
  globals (run_imports (ms1 ++ m :: ms2) st) !! n = Some (VObj o).
Proof.
  intros Ho Hex Hreq.
  change (m :: ms2) with ([m] ++ ms2).
  rewrite app_assoc, run_imports_app, run_imports_preserve by done.
  by rewrite run_imports_snoc, import_star_lookup, Ho.
Qed.

(** The name of a submodule that none of the imports exports is bound
    to that submodule once it is loaded. *)
Lemma run_imports_module ms st n :
  (∀ m, m ∈ ms → exports_of m !! n = None) →
  (n ∈ loaded st → globals st !! n = Some (VModule n)) →
  n ∈ loaded (run_imports ms st) →
  globals (run_imports ms st) !! n = Some (VModule n).
Proof.
  revert st. induction ms as [|m ms IH]; intros st Hex Hst Hn; [by apply Hst|].
  simpl in *. apply IH; [intros m' Hm'; apply Hex; by right| |done].
  rewrite import_star_lookup, (Hex m) by (by left).
  rewrite import_star_loaded. case_decide; [done|].
  intros [Hl|[Hm Hnm]]; [by apply Hst|].
  apply Hst. destruct (decide (n ∈ loaded st)); [done|naive_solver].
Qed.

(** A name that is not the name of a required or imported submodule is
    bound by exports only, the last one winning. *)
Lemma last_export_snoc ms m n :
  last_export load (ms ++ [m]) n =
    match exports_of m !! n with
    | Some o => Some o
    | None => last_export load ms n
    end.
Proof.
  unfold last_export. rewrite reverse_snoc. simpl.
  by destruct (exports_of m !! n).
Qed.

Lemma run_imports_last_export ms st n :
  (∀ m, m ∈ ms → n ∉ (requires m ++ [m])) →
  globals (run_imports ms st) !! n =
    match last_export load ms n with
    | Some o => Some (VObj o)
    | None => globals st !! n
    end.
Proof.
  induction ms as [|m ms IH] using rev_ind; intros Hn; [done|].
  rewrite run_imports_snoc, import_star_lookup, last_export_snoc.
  destruct (exports_of m !! n) as [o|]; [done|].
  rewrite decide_False.
  - apply IH. intros m' Hm'. apply Hn, elem_of_app. by left.
  - intros (_ & Hreq & _). apply (Hn m); [|done].
    apply elem_of_app. right. by left.
Qed.

Lemma last_export_Some_elem ms n o :
  last_export load ms n = Some o →
  ∃ m, m ∈ ms ∧ exports_of m !! n = Some o.
Proof.
  induction ms as [|m ms IH] using rev_ind; [done|].
  rewrite last_export_snoc.
  destruct (exports_of m !! n) as [o'|] eqn:E.
  - intros [= <-]. exists m. split; [|done].
    apply elem_of_app. right. by left.
  - intros H. destruct (IH H) as (m' & Hm' & Hb).
    exists m'. split; [|done]. apply elem_of_app. by left.
Qed.

Lemma last_export_is_Some ms m n :
  m ∈ ms → is_Some (exports_of m !! n) →
  is_Some (last_export load ms n).
Proof.
  induction ms as [|m' ms IH] using rev_ind;
    [by intros ?%elem_of_nil|].
  intros Hm Hb. rewrite last_export_snoc.
  destruct (exports_of m' !! n) as [o'|] eqn:E; [by eexists|].
  apply IH; [|done].
  apply elem_of_app in Hm as [Hm|Hm]; [done|].
  apply list_elem_of_singleton in Hm as ->. rewrite E in Hb.
  by destruct Hb.
Qed.




(** *** The run of the module body *)

Lemma exec_imports_ok ms st :
  Forall (λ m, ∃ ex, load m = inr ex) ms →
  exec_code load requires (ImportStar <$> ms) st = inr (run_imports ms st).
Proof.
  intros Hall. revert st.
  induction Hall as [|m ms [ex Hm] _ IH]; intros st; csimpl; [done|].
  by rewrite Hm, IH.
Qed.

(** A run without exception has loaded every submodule. *)
Lemma exec_imports_inv ms st st' :
  exec_code load requires (ImportStar <$> ms) st = inr st' →
  Forall (λ m, ∃ ex, load m = inr ex) ms.
Proof.
  revert st. induction ms as [|m ms IH]; intros st; csimpl; [by constructor|].
  destruct (load m) as [e|ex] eqn:E; [done|].
  intros H. constructor; [by eexists|]. by eapply IH.
Qed.

(** The first submodule that fails to load decides the outcome. *)
Lemma exec_imports_first_failure ms st (i : nat) m e :
  ms !! i = Some m → load m = inl e →
  ∃ (j : nat) m' e',
    (j ≤ i)%nat ∧ ms !! j = Some m' ∧ load m' = inl e' ∧
    (∀ (k : nat) mk, (k < j)%nat → ms !! k = Some mk →
             ∃ ex, load mk = inr ex) ∧
    exec_code load requires (ImportStar <$> ms) st = inl e'.
Proof.
  revert st i. induction ms as [|m0 ms IH]; intros st i Hi Hm; [done|].
  destruct (load m0) as [e0|ex0] eqn:E0.
  - exists 0, m0, e0. csimpl. rewrite E0.
    repeat split; [lia|done..|intros; lia].
  - destruct i as [|i]; simplify_eq/=; [congruence|].
    destruct (IH (Package.import_star load requires m0 st) i Hi Hm)
      as (j & m' & e' & Hj & Hm' & He' & Hbefore & Hrun).
    exists (S j), m', e'. csimpl. rewrite E0.
    repeat split; [lia|done..| |done].
    intros [|k] mk Hk Hmk; simplify_eq/=; [by eexists|].
    eapply Hbefore; [|done]. lia.
Qed.

Lemma exec_code_unfold g0 :
  exec_code load requires code (State g0 []) =
    exec_code load requires (ImportStar <$> submodules)
              (State (<["__doc__" := VDoc docstring]> g0) []).
Proof. reflexivity. Qed.

Lemma import_package_ok g0 :
  Forall (λ m, ∃ ex, load m = inr ex) submodules →
  import_package load requires g0 =
    inr (after_imports load requires
           (<["__doc__" := VDoc docstring]> g0) submodules).
Proof.
  intros Hall. unfold import_package.
  by rewrite exec_code_unfold, (exec_imports_ok _ _ Hall).
Qed.

Lemma import_package_inv g0 ns :
  import_package load requires g0 = inr ns →
  Forall (λ m, ∃ ex, load m = inr ex) submodules.
Proof.
  unfold import_package. rewrite exec_code_unfold.
  destruct (exec_code _ _ _ _) as [e|st] eqn:E; [done|].
  intros _. by eapply exec_imports_inv.
Qed.

(** A successful import yields the namespace after the ten imports. *)
Lemma import_package_namespace g0 ns :
  import_package load requires g0 = inr ns →
  ns = after_imports load requires
         (<["__doc__" := VDoc docstring]> g0) submodules.
Proof.
  intros Hns. pose proof (import_package_inv _ _ Hns) as Hall.
  rewrite (import_package_ok _ Hall) in Hns. congruence.
Qed.
End Run.

(** Case analysis on membership in a list given by its elements. *)
Ltac elem_cases H :=
  repeat (apply elem_of_cons in H as [->|H]);
  [..|apply elem_of_nil in H; destruct H].

Lemma sample_load_ok :
  Forall (λ m, ∃ ex, Examples.sample_load m = inr ex) submodules.
Proof. repeat constructor; by eexists. Qed.

Lemma sample_requires_ok m s :
  s ∈ Examples.sample_requires m → s ∈ submodules.
Proof.
  unfold Examples.sample_requires. intros Hs.
  repeat case_decide; elem_cases Hs;
    by apply (bool_decide_unpack (_ ∈ submodules)).
Qed.

(** A submodule that an earlier submodule has loaded is not bound again
    at its own import line: when [base] imports [conv] and exports a
    name [conv], that export stays; when [base] does not import it, the
    later line binds the submodule. *)
Example sibling_loaded_early_is_not_rebound :
  after_imports Examples.shadowing_load Examples.sample_requires ∅ submodules
    !! "conv" = Some (VObj 7) ∧
  after_imports Examples.shadowing_load (λ _, []) ∅ submodules
    !! "conv" = Some (VModule "conv") ∧
  after_imports Examples.shadowing_load Examples.sample_requires ∅ submodules
    !! "noise" = Some (VObj 8).
Proof. repeat split; vm_compute; reflexivity. Qed.




(** C9: the package imports its submodules one after the other, and its
    import succeeds only when each of the ten loads.  When a submodule
    fails to import, importing the package raises the error of the first
    submodule that fails (the error of that submodule itself when the
    ones before it load), and yields no namespace. *)
Theorem import_fails_when_submodule_fails {Obj Exn : Type}
    (load : string → Exn + gmap string Obj) (requires : string → list string)
    (g0 : gmap string (value Obj)) :
  (∀ ns, import_package load requires g0 = inr ns →
         ∀ m, m ∈ submodules → ∃ ex, load m = inr ex) ∧
  (∀ (i : nat) m e,
     submodules !! i = Some m → load m = inl e →
     (∀ ns, import_package load requires g0 ≠ inr ns) ∧
     (∃ (j : nat) m' e',
         (j ≤ i)%nat ∧ submodules !! j = Some m' ∧ load m' = inl e' ∧
         (∀ (k : nat) mk, (k < j)%nat → submodules !! k = Some mk →
                  ∃ ex, load mk = inr ex) ∧
         import_package load requires g0 = inl e') ∧
     ((∀ (k : nat) mk, (k < i)%nat → submodules !! k = Some mk →
               ∃ ex, load mk = inr ex) →
      import_package load requires g0 = inl e)).
Proof.
  split.
  { intros ns Hns m Hm. apply import_package_inv in Hns.
    rewrite Forall_forall in Hns. by apply Hns. }
  intros i m e Hi Hm.
  destruct (exec_imports_first_failure load requires submodules
              (State (<["__doc__" := VDoc docstring]> g0) []) i m e Hi Hm)
    as (j & m' & e' & Hj & Hm' & He' & Hbefore & Hrun).
  assert (Hraise : import_package load requires g0 = inl e').
  { unfold import_package. by rewrite exec_code_unfold, Hrun. }
  split; [|split].
  - intros ns. rewrite Hraise. discriminate.
  - by exists j, m', e'.
  - intros Hok. rewrite Hraise. f_equal.
    destruct (decide (j = i)) as [->|Hne]; [congruence|].
    destruct (Hok j m') as [ex Hex]; [lia|done|congruence].
Qed.

Lemma import_fails_when_submodule_fails_witness :
  submodules !! 5 = Some "conv" ∧
  Examples.conv_fails "conv" = inl "ImportError: conv" ∧
  import_package Examples.conv_fails Examples.sample_requires ∅
    = inl "ImportError: conv".
Proof.
  split; [reflexivity|]. split; [reflexivity|].
  apply (proj2 (import_fails_when_submodule_fails Examples.conv_fails
                  Examples.sample_requires ∅)
           5 "conv" "ImportError: conv" eq_refl eq_refl).
  intros k mk Hk Hmk.
  do 5 (destruct k as [|k]; [injection Hmk as <-; by eexists|]). lia.
Defined.

End PackageProps.

(** ** Parameters, networks and output computation *)

Module LayersProps.
Import Source Layers.

Section NetworkFacts.
Context {V R : Type}.
Implicit Types (net : network V R) (l i j : nat) (kw : kwargs)
               (t : @trace) (rng : nat → R) (x : nat → V).

Lemma new_layer_Some ins b net id net' :
  new_layer ins b net = Some (id, net') →
  id = length net ∧ net' = net ++ [Layer ins b] ∧
  Forall (λ i, i < length net) ins.
Proof.
  unfold new_layer.
  destruct (forallb _ ins) eqn:E; [|done]. intros [= <- <-].
  repeat split. apply Forall_forall. intros i Hi.
  rewrite forallb_forall in E. specialize (E i).
  rewrite bool_decide_eq_true in E. by apply E, list_elem_of_In.
Qed.

Lemma ordered_snoc net lay :
  ordered net → Forall (λ i, i < length net) (inputs_of lay) →
  ordered (net ++ [lay]).
Proof.
  intros Hord Hins i l j Hi Hj.
  apply lookup_snoc_Some in Hi as [[Hlt Hi]|[-> <-]].
  - by eapply Hord.
  - rewrite Forall_forall in Hins. by apply Hins.
Qed.

Lemma built_ordered net : built net → ordered net.
Proof.
  induction 1 as [|shape net _ IH|ins b net id net' _ IH Hnew].
  - intros i l j Hi. done.
  - apply ordered_snoc; [done|]. constructor.
  - apply new_layer_Some in Hnew as (_ & -> & Hins).
    by apply ordered_snoc.
Qed.

Lemma ordered_tc net i j : ordered net → tc (edge net) i j → j < i.
Proof.
  intros Hord. induction 1 as [i j (l & Hl & Hj)|i k j (l & Hl & Hk) _ IH].
  - by eapply Hord.
  - specialize (Hord _ _ _ Hl Hk). lia.
Qed.

Section Walk.
Variables (net : network V R) (x : nat → V) (kw : kwargs).
Hypothesis Hord : ordered net.

Lemma mapM_walk (f : nat → trace → option (V * trace)) (ins : list nat) :
  (∀ j, j ∈ ins → ∀ t, ∃ v t' new,
      f j t = Some (v, t') ∧ visits t' = visits t ++ new ∧
      visited_by net kw [j] new) →
  ∀ t, ∃ vs t' new,
    mapM_st f ins t = Some (vs, t') ∧ visits t' = visits t ++ new ∧
    visited_by net kw ins new.
Proof.
  induction ins as [|j ins IH]; intros Hf t.
  - exists [], t, []. rewrite app_nil_r. repeat split; [constructor|].
    intros r i Hr. by apply elem_of_nil in Hr.
  - destruct (Hf j ltac:(left) t) as (v & t1 & new1 & Hj & Hv1 & Hall1 & Hin1).
    destruct (IH (λ k Hk, Hf k ltac:(by right)) t1)
      as (vs & t2 & new2 & Hins & Hv2 & Hall2 & Hin2).
    exists (v :: vs), t2, (new1 ++ new2). simpl. rewrite Hj, Hins.
    split; [done|]. split; [by rewrite Hv2, Hv1, app_assoc|]. split.
    + apply Forall_app. split.
      * eapply Forall_impl; [exact Hall1|].
        intros p (Hp & r & Hr & Hreach). split; [done|].
        exists r. split; [|done]. apply list_elem_of_singleton in Hr as ->.
        by left.
      * eapply Forall_impl; [exact Hall2|].
        intros p (Hp & r & Hr & Hreach). split; [done|].
        exists r. split; [by right|done].
    + intros r i Hr Hreach. apply elem_of_app.
      apply elem_of_cons in Hr as [->|Hr].
      * left. eapply Hin1; [|done]. by apply list_elem_of_singleton.
      * right. by eapply Hin2.
Qed.

(** With fuel above the position of the output layer, the walk
    returns; it visits the layers reachable from the output layer,
    and only those, each with the keyword arguments of the call. *)
Lemma get_output_for_visits l (b : behaviour V R) (vs : list V) rng t :
  visits (get_output_for l b vs kw rng t).2 = visits t ++ [(l, kw)].
Proof.
  unfold get_output_for. destruct b; [done|].
  by destruct (deterministic kw).
Qed.

(** With fuel above the position of the output layer, the walk
    returns; the layers called are those reachable from the output
    layer, and only those, each with the keyword arguments of the
    call. *)
Lemma get_output_walk rng fuel :
  ∀ l t, l < fuel → l < length net →
    ∃ v t' new,
      get_output fuel net x kw rng l t = Some (v, t') ∧
      visits t' = visits t ++ new ∧ visited_by net kw [l] new.
Proof.
  induction fuel as [|fuel IH]; intros l t Hfuel Hlen; [lia|].
  destruct (lookup_lt_is_Some_2 net l Hlen) as [lay Hlay].
  cbn [get_output]. rewrite Hlay. destruct lay as [shape|ins b].
  - exists (x l), (visit l kw t), [(l, kw)]. repeat split.
    + constructor; [|constructor]. split; [done|].
      exists l. split; [by left|done].
    + intros r i Hr Hreach. apply list_elem_of_singleton in Hr as ->.
      destruct Hreach as [|l j i (lay & Hl & Hj) _]; [by left|].
      simplify_eq. by apply elem_of_nil in Hj.
  - destruct (mapM_walk (get_output fuel net x kw rng) ins) with
      (t := t) as (vs & t1 & new & Hins & Hv & Hall & Hin).
    { intros j Hj t0. apply IH.
      - specialize (Hord _ _ _ Hlay Hj). lia.
      - specialize (Hord _ _ _ Hlay Hj). lia. }
    rewrite Hins.
    pose proof (get_output_for_visits l b vs rng t1) as Hfor.
    destruct (get_output_for l b vs kw rng t1) as [v t'].
    exists v, t', (new ++ [(l, kw)]). split; [done|].
    split; [simpl in Hfor; by rewrite Hfor, Hv, <- app_assoc|]. split.
    + apply Forall_app. split.
      * eapply Forall_impl; [exact Hall|].
        intros p (Hp & r & Hr & Hreach). split; [done|].
        exists l. split; [by left|].
        eapply rtc_l; [|done]. by exists (Layer ins b).
      * constructor; [|constructor]. split; [done|].
        exists l. split; [by left|done].
    + intros r i Hr Hreach. apply list_elem_of_singleton in Hr as ->.
      apply elem_of_app.
      destruct Hreach as [|l j i (lay & Hl & Hj) Hreach];
        [right; by left|].
      simplify_eq. left. by eapply Hin.
Qed.
End Walk.

(** Two state-passing maps whose steps agree on their results agree
    on their results. *)
Lemma mapM_st_fst_ext {A B S1 S2 : Type}
    (f1 : A → S1 → option (B * S1)) (f2 : A → S2 → option (B * S2))
    (l : list A) :
  (∀ a s1 s2, @fst B S1 <$> f1 a s1 = @fst B S2 <$> f2 a s2) →
  ∀ s1 s2, @fst (list B) S1 <$> mapM_st f1 l s1
           = @fst (list B) S2 <$> mapM_st f2 l s2.
Proof.
  intros Hf. induction l as [|a l IH]; intros s1 s2; [done|]. simpl.
  specialize (Hf a s1 s2).
  destruct (f1 a s1) as [[b1 s1']|], (f2 a s2) as [[b2 s2']|];
    simplify_eq/=; [|done].
  specialize (IH s1' s2').
  destruct (mapM_st f1 l s1') as [[bs1 ?]|], (mapM_st f2 l s2') as [[bs2 ?]|];
    by simplify_eq/=.
Qed.

(** When [deterministic] is set, a layer computes its output without
    the random stream and consumes no draw. *)
Lemma get_output_for_deterministic l (b : behaviour V R) (vs : list V)
    kw rng1 rng2 t1 t2 :
  deterministic kw = true →
  (get_output_for l b vs kw rng1 t1).1 = (get_output_for l b vs kw rng2 t2).1
  ∧ draws (get_output_for l b vs kw rng1 t1).2 = draws t1.
Proof.
  intros Hdet. unfold get_output_for. destruct b; [done|].
  by rewrite Hdet.
Qed.

(** When [deterministic] is set, the value computed depends neither on
    the random stream nor on the trace so far. *)
Lemma get_output_fst_deterministic net x kw rng1 rng2 fuel :
  deterministic kw = true →
  ∀ l t1 t2,
    @fst V trace <$> get_output fuel net x kw rng1 l t1 =
    @fst V trace <$> get_output fuel net x kw rng2 l t2.
Proof.
  intros Hdet. induction fuel as [|fuel IH]; intros l t1 t2; [done|].
  cbn [get_output]. destruct (net !! l) as [[shape|ins b]|]; [done| |done].
  pose proof (mapM_st_fst_ext _ _ ins IH t1 t2) as Hins.
  destruct (mapM_st _ ins t1) as [[vs1 t1']|],
           (mapM_st _ ins t2) as [[vs2 t2']|];
    simplify_eq/=; [|done].
  f_equal.
  apply (get_output_for_deterministic l b vs2 kw rng1 rng2 t1' t2' Hdet).
Qed.

Lemma mapM_st_draws (f : nat → trace → option (V * trace)) ins :
  (∀ j t v t', f j t = Some (v, t') → draws t' = draws t) →
  ∀ t vs t', mapM_st f ins t = Some (vs, t') → draws t' = draws t.
Proof.
  intros Hf. induction ins as [|j ins IH]; intros t vs t' H; simplify_eq/=;
    [done|].
  destruct (f j t) as [[v t1]|] eqn:E; [|done].
  destruct (mapM_st f ins t1) as [[vs' t2]|] eqn:E'; simplify_eq/=.
  rewrite (IH _ _ _ E'). by eapply Hf.
Qed.

(** When [deterministic] is set, no random draw is consumed. *)
Lemma get_output_draws net x kw rng fuel :
  deterministic kw = true →
  ∀ l t v t', get_output fuel net x kw rng l t = Some (v, t') →
              draws t' = draws t.
Proof.
  intros Hdet. induction fuel as [|fuel IH]; intros l t v t'; [done|].
  cbn [get_output]. destruct (net !! l) as [[shape|ins b]|]; [|  |done].
  - by intros [= <- <-].
  - destruct (mapM_st _ ins _) as [[vs t1]|] eqn:E; [|done].
    apply (mapM_st_draws _ _ IH) in E.
    pose proof (get_output_for_deterministic l b vs kw rng rng t1 t1 Hdet)
      as [_ Hd].
    intros [= Hfor]. rewrite Hfor in Hd. simpl in Hd. congruence.
Qed.



End NetworkFacts.

Lemma mlp_built : built Examples.mlp.
Proof.
  apply (built_layer [1] (Examples.dense 10)
           [InputLayer [100; 50]; Layer [0] (Examples.dense 200)] 2);
    [|reflexivity].
  apply (built_layer [0] (Examples.dense 200) [InputLayer [100; 50]] 1);
    [|reflexivity].
  apply (built_input [100; 50] []). constructor.
Qed.

Lemma mlp_dropout_built : built Examples.mlp_dropout.
Proof.
  apply (built_layer [2] (Examples.dense 10)
           [InputLayer [100; 50]; Layer [0] (Examples.dense 200);
            Layer [1] Examples.dropout] 3); [|reflexivity].
  apply (built_layer [1] Examples.dropout
           [InputLayer [100; 50]; Layer [0] (Examples.dense 200)] 2);
    [|reflexivity].
  apply (built_layer [0] (Examples.dense 200) [InputLayer [100; 50]] 1);
    [|reflexivity].
  apply (built_input [100; 50] []). constructor.
Qed.

(** Without the flag the dropout layer is stochastic: two random
    streams give two outputs. *)
Example dropout_is_stochastic :
  @fst nat trace <$>
    get_output 4 Examples.mlp_dropout (λ _, 1) ∅ (λ _, 0) 3 (Trace 0 [])
    = Some 10 ∧
  @fst nat trace <$>
    get_output 4 Examples.mlp_dropout (λ _, 1) ∅ (λ _, 1) 3 (Trace 0 [])
    = Some 211.
Proof. split; vm_compute; reflexivity. Qed.

(** C3: a parameter is given to a constructor in one of four ways.  A
    shared variable is used unchanged, and the store of shared variables
    is left as it is; a numeric array makes a new shared variable that
    holds the array; a callable is called with the desired shape and a
    new shared variable holds what it returns; none omits the parameter
    variable.  These are the three bullet items and the paragraph on
    none of the section on initialising parameters. *)
Theorem create_param_four_ways {Array : Type}
    (spec : param_spec Array) (shape : list nat) (σ : list Array) :
  match spec with
  | SharedVariable v => create_param spec shape σ = (Some v, σ)
  | NumpyArray a =>
      ∃ v σ', create_param spec shape σ = (Some v, σ') ∧
              σ !! v = None ∧ σ' !! v = Some a ∧
              ∀ u x, σ !! u = Some x → σ' !! u = Some x
  | Callable init =>
      ∃ v σ', create_param spec shape σ = (Some v, σ') ∧
              σ !! v = None ∧ σ' !! v = Some (init shape) ∧
              ∀ u x, σ !! u = Some x → σ' !! u = Some x
  | NoParam => create_param spec shape σ = (None, σ)
  end ∧
  bullets (lines 86 124) = ["Theano shared variable"; "numpy array"; "callable"] ∧
  lines 120 121 =
    [ "Some types of parameter variables can also be set to ``None`` at initialization";
      "(e.g. biases). In that case, the parameter variable will be omitted." ].
Proof.
  split; [|split; vm_compute; reflexivity].
  destruct spec as [v|a|init|]; simpl; [done| | |done].
  - exists (length σ), (σ ++ [a]). repeat split.
    + by apply lookup_ge_None_2.
    + by apply list_lookup_middle.
    + intros u x Hu. by apply lookup_app_l_Some.
  - exists (length σ), (σ ++ [init shape]). repeat split.
    + by apply lookup_ge_None_2.
    + by apply list_lookup_middle.
    + intros u x Hu. by apply lookup_app_l_Some.
Qed.



(** C5: when the [deterministic] keyword argument is set, the output of
    a network does not depend on the random stream: two evaluations on
    the same input return the same output, and no random draw is
    consumed. *)
Theorem deterministic_output {V R : Type}
    (net : network V R) (x : nat → V) (kw : kwargs) (fuel l : nat) :
  built net → l < length net → l < fuel →
  kw !! "deterministic" = Some (KBool true) →
  ∀ rng1 rng2 t1 t2,
    ∃ v t1' t2',
      get_output fuel net x kw rng1 l t1 = Some (v, t1') ∧
      get_output fuel net x kw rng2 l t2 = Some (v, t2') ∧
      draws t1' = draws t1 ∧ draws t2' = draws t2.
Proof.
  intros Hbuilt Hlen Hfuel Hkw rng1 rng2 t1 t2.
  assert (Hdet : deterministic kw = true) by (unfold deterministic; by rewrite Hkw).
  pose proof (built_ordered _ Hbuilt) as Hord.
  destruct (get_output_walk net x kw Hord rng1 fuel l t1 Hfuel Hlen)
    as (v1 & t1' & ? & H1 & _).
  destruct (get_output_walk net x kw Hord rng2 fuel l t2 Hfuel Hlen)
    as (v2 & t2' & ? & H2 & _).
  pose proof (get_output_fst_deterministic net x kw rng1 rng2 fuel Hdet l t1 t2)
    as Heq.
  rewrite H1, H2 in Heq. simplify_eq/=.
  exists v2, t1', t2'. repeat split; [done..| |].
  - by eapply get_output_draws.
  - by eapply get_output_draws.
Qed.

Lemma deterministic_output_witness :
  built Examples.mlp_dropout ∧ 3 < length Examples.mlp_dropout ∧ 3 < 4 ∧
  ({[ "deterministic" := KBool true ]} : kwargs) !! "deterministic"
    = Some (KBool true) ∧
  ∃ v t1' t2',
    get_output 4 Examples.mlp_dropout (λ _, 1)
      {[ "deterministic" := KBool true ]} (λ _, 0) 3 (Trace 0 [])
      = Some (v, t1') ∧
    get_output 4 Examples.mlp_dropout (λ _, 1)
      {[ "deterministic" := KBool true ]} (λ _, 1) 3 (Trace 7 [])
      = Some (v, t2') ∧
    draws t1' = 0 ∧ draws t2' = 7.
Proof.
  split; [exact mlp_dropout_built|]. split; [simpl; lia|]. split; [lia|].
  split; [reflexivity|].
  apply (deterministic_output Examples.mlp_dropout (λ _, 1)
           {[ "deterministic" := KBool true ]} 4 3 mlp_dropout_built
           ltac:(simpl; lia) ltac:(lia) eq_refl
           (λ _, 0) (λ _, 1) (Trace 0 []) (Trace 7 [])).
Defined.

(** C6: in a network made by the constructors every layer refers only
    to layers created before it, so no layer reaches itself: the graph is
    acyclic.  Any layer of the network can be given as input to two
    further layers. *)
Theorem network_is_dag {V R : Type} (net : network V R) :
  built net →
  (∀ i l j, net !! i = Some l → j ∈ inputs_of l → j < i ∧ j < length net) ∧
  (∀ i, ¬ tc (edge net) i i) ∧
  (∀ j b1 b2, j < length net →
     ∃ a c net1 net2,
       new_layer [j] b1 net = Some (a, net1) ∧
       new_layer [j] b2 net1 = Some (c, net2) ∧
       built net2 ∧ a ≠ c ∧ edge net2 a j ∧ edge net2 c j).
Proof.
  intros Hbuilt. pose proof (built_ordered _ Hbuilt) as Hord.
  split; [|split].
  - intros i l j Hi Hj. pose proof (Hord _ _ _ Hi Hj).
    apply lookup_lt_Some in Hi. lia.
  - intros i Hcycle. apply (ordered_tc _ _ _ Hord) in Hcycle. lia.
  - intros j b1 b2 Hj.
    assert (H1 : new_layer [j] b1 net = Some (length net, net ++ [Layer [j] b1])).
    { unfold new_layer. simpl. by rewrite bool_decide_true. }
    assert (H2 : new_layer [j] b2 (net ++ [Layer [j] b1]) =
                 Some (S (length net),
                       (net ++ [Layer [j] b1]) ++ [Layer [j] b2])).
    { unfold new_layer. simpl. rewrite length_app. simpl.
      rewrite bool_decide_true by lia. do 3 f_equal. lia. }
    exists (length net), (S (length net)), (net ++ [Layer [j] b1]),
      ((net ++ [Layer [j] b1]) ++ [Layer [j] b2]).
    split; [done|]. split; [done|]. split.
    { eapply built_layer; [|exact H2]. by eapply built_layer. }
    split; [lia|]. split.
    + exists (Layer [j] b1). split; [|by left].
      rewrite lookup_app_l by (rewrite length_app; simpl; lia).
      by apply list_lookup_middle.
    + exists (Layer [j] b2). split; [|by left].
      apply list_lookup_middle. rewrite length_app. simpl. lia.
Qed.

Lemma network_is_dag_witness :
  built Examples.mlp ∧
  (∀ i l j, Examples.mlp !! i = Some l → j ∈ inputs_of l →
            j < i ∧ j < length Examples.mlp) ∧
  (∀ i, ¬ tc (edge Examples.mlp) i i).
Proof.
  split; [exact mlp_built|].
  pose proof (network_is_dag Examples.mlp mlp_built) as (H1 & H2 & _).
  split; [exact H1|exact H2].
Defined.

End LayersProps.


(** ** Further properties of the module body *)

Module PackageMore.
Import Source Package PackageProps.

Lemma distinct_load_ok :
  Forall (λ m, ∃ ex, Examples.distinct_load m = inr ex) submodules.
Proof. repeat constructor; by eexists. Qed.

Lemma reexport_load_ok :
  Forall (λ m, ∃ ex, Examples.reexport_load m = inr ex) submodules.
Proof. repeat constructor; by eexists. Qed.

Lemma submodules_NoDup : NoDup submodules.
Proof. apply (bool_decide_unpack (NoDup submodules)). vm_compute. exact I. Qed.

(** The names that importing a submodule of the package can load are
    names of submodules, when the submodules import no other module of
    the package. *)
Lemma required_names (requires : string → list string) m n :
  (∀ m s, s ∈ requires m → s ∈ submodules) →
  m ∈ submodules → n ∈ (requires m ++ [m]) → n ∈ submodules.
Proof.
  intros Hreq Hm [Hn|Hn]%elem_of_app; [by eapply Hreq|].
  by apply list_elem_of_singleton in Hn as ->.
Qed.

(** X3: after a successful import the package's [__doc__] is the
    documentation string of the file, whatever [__doc__] was before,
    unless a submodule exports a [__doc__] of its own; then the export of
    the last such submodule replaces it. *)
Theorem doc_is_docstring_unless_exported {Obj Exn : Type}
    (load : string → Exn + gmap string Obj) (requires : string → list string)
    (g0 ns : gmap string (value Obj)) :
  (∀ m s, s ∈ requires m → s ∈ submodules) →
  import_package load requires g0 = inr ns →
  ns !! "__doc__" =
    match last_export load submodules "__doc__" with
    | Some o => Some (VObj o)
    | None => Some (VDoc docstring)
    end.
Proof.
  intros Hreq Hns. apply import_package_namespace in Hns as ->.
  unfold after_imports. rewrite run_imports_last_export.
  - destruct (last_export load submodules "__doc__"); [done|].
    apply lookup_insert_eq.
  - intros m Hm Hn. apply doc_not_submodule. by eapply required_names.
Qed.

Lemma doc_is_docstring_unless_exported_witness :
  (∀ m s, s ∈ Examples.sample_requires m → s ∈ submodules) ∧
  import_package Examples.sample_load Examples.sample_requires
    {[ "__doc__" := VObj 0 ]} =
    inr (after_imports Examples.sample_load Examples.sample_requires
           (<["__doc__" := VDoc docstring]> {[ "__doc__" := VObj 0 ]})
           submodules) ∧
  after_imports Examples.sample_load Examples.sample_requires
    (<["__doc__" := VDoc docstring]> {[ "__doc__" := VObj 0 ]}) submodules
    !! "__doc__" = Some (VDoc docstring).
Proof.
  pose proof (import_package_ok Examples.sample_load Examples.sample_requires
                {[ "__doc__" := VObj 0 ]} sample_load_ok) as H.
  split; [exact sample_requires_ok|]. split; [exact H|].
  by rewrite (doc_is_docstring_unless_exported Examples.sample_load
                Examples.sample_requires _ _ sample_requires_ok H).
Defined.



(** X5: a name that several submodules export is harmless when they
    export the same object: if every submodule that exports a name (not
    the name of a submodule) exports the object [o], and one of them
    does, the package binds the name to [o], in whatever order the
    submodules are imported. *)
Theorem agreeing_exports_resolve {Obj Exn : Type}
    (load : string → Exn + gmap string Obj) (requires : string → list string)
    (g0 ns : gmap string (value Obj)) (n : string) (o : Obj) (m : string) :
  (∀ m s, s ∈ requires m → s ∈ submodules) →
  import_package load requires g0 = inr ns →
  n ∉ submodules →
  m ∈ submodules → exports_of load m !! n = Some o →
  (∀ m' o', m' ∈ submodules → exports_of load m' !! n = Some o' → o' = o) →
  ns !! n = Some (VObj o).
Proof.
  intros Hreq Hns Hn Hm Hex Hagree. apply import_package_namespace in Hns as ->.
  unfold after_imports. rewrite run_imports_last_export.
  - destruct (last_export_is_Some load submodules m n Hm) as [o' Ho'];
      [by rewrite Hex|].
    rewrite Ho'. apply last_export_Some_elem in Ho' as (m' & Hm' & Ho').
    by rewrite (Hagree m' o' Hm' Ho').
  - intros m' Hm' Hin. apply Hn. by eapply required_names.
Qed.

Lemma agreeing_exports_resolve_witness :
  (∀ m s, s ∈ Examples.sample_requires m → s ∈ submodules) ∧
  import_package Examples.reexport_load Examples.sample_requires ∅ =
    inr (after_imports Examples.reexport_load Examples.sample_requires
           (<["__doc__" := VDoc docstring]> ∅) submodules) ∧
  ("Layer" ∉ submodules) ∧ ("base" ∈ submodules) ∧
  exports_of Examples.reexport_load "base" !! "Layer" = Some 1 ∧
  exports_of Examples.reexport_load "dense" !! "Layer" = Some 1 ∧
  after_imports Examples.reexport_load Examples.sample_requires
    (<["__doc__" := VDoc docstring]> ∅) submodules !! "Layer"
  = Some (VObj 1).
Proof.
  pose proof (import_package_ok Examples.reexport_load
                Examples.sample_requires ∅ reexport_load_ok) as H.
  assert (Hn : "Layer" ∉ submodules)
    by (apply (bool_decide_unpack ("Layer" ∉ submodules)); vm_compute;
        exact I).
  assert (Hm : "base" ∈ submodules)
    by (apply (bool_decide_unpack ("base" ∈ submodules)); vm_compute;
        exact I).
  split; [exact sample_requires_ok|]. split; [exact H|].
  split; [exact Hn|]. split; [exact Hm|].
  split; [reflexivity|]. split; [reflexivity|].
  apply (agreeing_exports_resolve Examples.reexport_load
           Examples.sample_requires ∅ _ "Layer" 1 "base"
           sample_requires_ok H Hn Hm eq_refl).
  clear H. intros m' o' Hm' Ho'.
  elem_cases Hm'; vm_compute in Ho'; congruence.
Defined.

(** X6: the order of the ten import lines matters only for names that
    two submodules bind.  If no two submodules export a common name and
    none exports the name of another, importing the submodules in any
    other order gives the same namespace. *)
Theorem import_order_irrelevant_without_clash {Obj Exn : Type}
    (load : string → Exn + gmap string Obj) (requires : string → list string)
    (g0 ns : gmap string (value Obj)) (ms : list string) :
  (∀ m s, s ∈ requires m → s ∈ submodules) →
  import_package load requires g0 = inr ns →
  ms ≡ₚ submodules →
  (∀ m1 m2, m1 ∈ submodules → m2 ∈ submodules → m1 ≠ m2 →
            dom (exports_of load m1) ## dom (exports_of load m2)) →
  (∀ m1 m2, m1 ∈ submodules → m2 ∈ submodules → m1 ≠ m2 →
            m2 ∉ dom (exports_of load m1)) →
  after_imports load requires (<["__doc__" := VDoc docstring]> g0) ms = ns.
Proof.
  intros Hreq Hns Hperm Hdisj Hname.
  apply import_package_namespace in Hns as ->.
  set (st0 := State (<["__doc__" := VDoc docstring]> g0) []).
  assert (Hany : ∀ L n, L ≡ₚ submodules →
    globals (run_imports load requires L st0) !! n =
      match last_export load submodules n with
      | Some o => Some (VObj o)
      | None => if decide (n ∈ submodules) then Some (VModule n)
                else globals st0 !! n
      end).
  { intros L n HL.
    destruct (last_export load submodules n) as [o|] eqn:E.
    - apply last_export_Some_elem in E as (m & Hm & Ho).
      assert (HmL : m ∈ L) by by rewrite HL.
      apply list_elem_of_split in HmL as (l1 & l2 & ->).
      assert (Hnd : NoDup (l1 ++ m :: l2)) by (rewrite HL; apply submodules_NoDup).
      apply NoDup_app in Hnd as (_ & _ & Hnd). apply NoDup_cons in Hnd as [Hml2 _].
      assert (Hsub : ∀ m', m' ∈ l2 → m' ∈ submodules).
      { intros m' Hm'. rewrite <- HL. apply elem_of_app. right. by right. }
      apply run_imports_export_wins; [done| |].
      + intros m' Hm'.
        destruct (exports_of load m' !! n) as [o'|] eqn:E'; [|done].
        exfalso. assert (m ≠ m') by (by intros ->).
        apply (Hdisj m m' Hm (Hsub _ Hm') ltac:(done) n);
          apply elem_of_dom; by eexists.
      + intros m' Hm' Hn. apply run_imports_loaded.
        assert (Hns : n ∈ submodules)
          by (eapply required_names; [done|by apply Hsub|done]).
        destruct (decide (n = m)) as [->|Hne].
        * apply elem_of_app. right. by left.
        * exfalso. apply (Hname m n Hm Hns ltac:(done)).
          apply elem_of_dom. by eexists.
    - assert (Hnone : ∀ m, m ∈ submodules → exports_of load m !! n = None).
      { intros m Hm. destruct (exports_of load m !! n) eqn:E'; [|done].
        destruct (last_export_is_Some load submodules m n Hm) as [? ?];
          [by rewrite E'|congruence]. }
      assert (HnoneL : ∀ m, m ∈ L → exports_of load m !! n = None).
      { intros m Hm. apply Hnone. by rewrite <- HL. }
      case_decide as Hn.
      + apply run_imports_module; [done| |].
        * intros H. by apply elem_of_nil in H.
        * apply run_imports_loaded. by rewrite HL.
      + apply run_imports_preserve; [done|].
        intros m Hm Hin. exfalso. apply Hn.
        eapply required_names; [done| |done]. by rewrite <- HL.  }
  apply map_eq. intros n. unfold after_imports. fold st0.
  by rewrite (Hany ms n Hperm), (Hany submodules n).
Qed.

Lemma import_order_irrelevant_without_clash_witness :
  (∀ m s, s ∈ Examples.sample_requires m → s ∈ submodules) ∧
  import_package Examples.distinct_load Examples.sample_requires ∅ =
    inr (after_imports Examples.distinct_load Examples.sample_requires
           (<["__doc__" := VDoc docstring]> ∅) submodules) ∧
  reverse submodules ≡ₚ submodules ∧
  after_imports Examples.distinct_load Examples.sample_requires
    (<["__doc__" := VDoc docstring]> ∅) (reverse submodules)
  = after_imports Examples.distinct_load Examples.sample_requires
      (<["__doc__" := VDoc docstring]> ∅) submodules.
Proof.
  pose proof (import_package_ok Examples.distinct_load
                Examples.sample_requires ∅ distinct_load_ok) as H.
  split; [exact sample_requires_ok|].
  split; [exact H|]. split; [apply reverse_Permutation|].
  apply (import_order_irrelevant_without_clash Examples.distinct_load
           Examples.sample_requires ∅ _ (reverse submodules)
           sample_requires_ok H (reverse_Permutation _)).
  - assert (Hall : Forall (λ m1, Forall (λ m2, m1 ≠ m2 →
        dom (exports_of Examples.distinct_load m1)
        ## dom (exports_of Examples.distinct_load m2)) submodules) submodules)
      by compute_done.
    intros m1 m2 H1 H2. rewrite Forall_forall in Hall.
    specialize (Hall m1 H1). rewrite Forall_forall in Hall. by apply Hall.
  - assert (Hall : Forall (λ m1, Forall (λ m2, m1 ≠ m2 →
        m2 ∉ dom (exports_of Examples.distinct_load m1)) submodules) submodules)
      by compute_done.
    intros m1 m2 H1 H2. rewrite Forall_forall in Hall.
    specialize (Hall m1 H1). rewrite Forall_forall in Hall. by apply Hall.
Defined.



(** X8: a successful import leaves alone every attribute of the module
    that it does not bind: a name other than [__doc__] that is neither
    the name of a submodule nor exported by one keeps the value it had
    before the import. *)
Theorem unrelated_attribute_preserved {Obj Exn : Type}
    (load : string → Exn + gmap string Obj) (requires : string → list string)
    (g0 ns : gmap string (value Obj)) (n : string) :
  (∀ m s, s ∈ requires m → s ∈ submodules) →
  import_package load requires g0 = inr ns →
  n ≠ "__doc__" → n ∉ submodules →
  (∀ m, m ∈ submodules → exports_of load m !! n = None) →
  ns !! n = g0 !! n.
Proof.
  intros Hreq Hns Hdoc Hn Hnone. apply import_package_namespace in Hns as ->.
  unfold after_imports. rewrite run_imports_preserve; [|done|].
  - simpl. by rewrite lookup_insert_ne.
  - intros m Hm Hin. exfalso. apply Hn. by eapply required_names.
Qed.

Lemma unrelated_attribute_preserved_witness :
  (∀ m s, s ∈ Examples.sample_requires m → s ∈ submodules) ∧
  import_package Examples.sample_load Examples.sample_requires
    {[ "__name__" := VObj 7 ]} =
    inr (after_imports Examples.sample_load Examples.sample_requires
           (<["__doc__" := VDoc docstring]> {[ "__name__" := VObj 7 ]})
           submodules) ∧
  "__name__" ≠ "__doc__" ∧ ("__name__" ∉ submodules) ∧
  after_imports Examples.sample_load Examples.sample_requires
    (<["__doc__" := VDoc docstring]> {[ "__name__" := VObj 7 ]}) submodules
    !! "__name__" = Some (VObj 7).
Proof.
  pose proof (import_package_ok Examples.sample_load Examples.sample_requires
                {[ "__name__" := VObj 7 ]} sample_load_ok) as H.
  assert (Hn : "__name__" ∉ submodules)
    by (apply (bool_decide_unpack ("__name__" ∉ submodules)); vm_compute;
        exact I).
  split; [exact sample_requires_ok|].
  split; [exact H|]. split; [discriminate|]. split; [exact Hn|].
  rewrite (unrelated_attribute_preserved Examples.sample_load
             Examples.sample_requires _ _ "__name__" sample_requires_ok H
             ltac:(discriminate) Hn); [apply lookup_singleton_eq|].
  intros m Hm. elem_cases Hm; vm_compute; reflexivity.
Defined.

End PackageMore.
